(** * visitor-double-dispatch: a shallow embedding and its properties

    The program is one C++ translation unit: a closed hierarchy of
    read-only data objects ([StringObject], [IntegerObject],
    [FloatObject]) below the abstract [DataObject], a visitor base
    class [DataObjectVisitor] with one virtual, empty [visit] per
    derived class, the three one-line [accept] overriders that perform
    the second dispatch, a printing visitor [DataRenderer], a fixed
    producer [getObjects] and [main].

    Virtual calls are modelled by their resolution: a visitor class is
    the table of the overriders it declares and a call selects the
    overrider or, failing that, the base-class body.  What a handler
    body may do is what a C++ member function may do to its own object
    and to the output stream: change the data members, write text, and
    return or throw.  Static and global variables are not modelled;
    the classes of the program have none. *)

From Stdlib Require Import ZArith List String Ascii Bool Lia DecimalString.
From Stdlib Require Import Floats.SpecFloat.
From Stdlib Require DecimalPos DecimalZ.
From stdpp Require Import gmap.
Import ListNotations.

Local Open Scope Z_scope.
Local Open Scope string_scope.

(** ** The C++ scalar types used by the program *)

Module CFloat.

(** [float] is IEEE-754 binary32: 24 bits of precision, infinities
    at exponent 128.  Values are [spec_float]s; the representable
    ones satisfy [is_float]. *)
Definition prec : Z := 24.
Definition emax : Z := 128.

Definition is_float (x : spec_float) : bool := valid_binary prec emax x.

(** Conversion of a wider binary floating-point value (a [double]
    argument, say) to [float]: round to nearest, ties to even. *)
Definition to_float (x : spec_float) : spec_float :=
  match x with
  | S754_finite s m e => binary_round prec emax s m e
  | _ => x
  end.

(** The literal [3.14f]: the decimal 314/100 rounded to [float]. *)
Definition lit_3_14f : spec_float :=
  SFdiv prec emax (binary_normalize prec emax 314 0 false)
                  (binary_normalize prec emax 100 0 false).

(** The default argument promotion of a [float] passed through the
    ellipsis of [printf]: the value is kept, as every binary32 value
    is a binary64 value. *)
Definition promote (x : spec_float) : spec_float := x.

End CFloat.

(** ** The part of the C library the program calls: [printf] *)

Module Stdio.

Definition dquote : string := String "034"%char EmptyString.
Definition newline : string := String "010"%char EmptyString.

(** [std::string::c_str()] read by [%s]: the characters before the
    first NUL. *)
Fixpoint c_str (s : string) : string :=
  match s with
  | EmptyString => EmptyString
  | String c rest =>
      if Ascii.eqb c "000"%char then EmptyString else String c (c_str rest)
  end.

(** [%d] *)
Definition format_d (z : Z) : string := NilZero.string_of_int (Z.to_int z).

Definition digit (z : Z) : ascii := ascii_of_nat (48 + Z.to_nat z).

(** The [n] low decimal digits of [z], most significant first, zero
    padded. *)
Fixpoint fixed_digits (n : nat) (z : Z) : string :=
  match n with
  | O => EmptyString
  | S k => fixed_digits k (z / 10) ++ String (digit (z mod 10)) EmptyString
  end.

(** [m * 2^e * 10^6] rounded to the nearest integer, ties to even. *)
Definition scaled6 (m : positive) (e : Z) : Z :=
  match e with
  | Zneg p =>
      let d := 2 ^ Zpos p in
      let n := Zpos m * 1000000 in
      let q := n / d in
      match Z.compare (2 * (n mod d)) d with
      | Lt => q
      | Gt => q + 1
      | Eq => if Z.even q then q else q + 1
      end
  | _ => Zpos m * 2 ^ e * 1000000
  end.

Definition sign_text (s : bool) : string := if s then "-" else "".

(** [%f] with the default precision of six digits after the point.
    [spec_float] has one NaN and no sign bit for it: whether a NaN is
    printed as [nan] or as [-nan] is not decided by this model, which
    gives [nan]. *)
Definition format_f (x : spec_float) : string :=
  match x with
  | S754_zero s => sign_text s ++ "0.000000"
  | S754_infinity s => sign_text s ++ "inf"
  | S754_nan => "nan"
  | S754_finite s m e =>
      let n := scaled6 m e in
      sign_text s ++ format_d (n / 1000000) ++ "." ++ fixed_digits 6 (n mod 1000000)
  end.

Inductive arg : Type :=
| ArgStr (s : string)          (* const char* *)
| ArgInt (z : Z)               (* int *)
| ArgDouble (x : spec_float).  (* double *)

(** The conversions the program's format strings use.  A directive
    whose argument is missing or of another type stops the output. *)
Fixpoint printf (fmt : string) (args : list arg) : string :=
  match fmt with
  | String "%" (String "s" rest) =>
      match args with
      | ArgStr s :: more => s ++ printf rest more
      | _ => EmptyString
      end
  | String "%" (String "d" rest) =>
      match args with
      | ArgInt z :: more => format_d z ++ printf rest more
      | _ => EmptyString
      end
  | String "%" (String "f" rest) =>
      match args with
      | ArgDouble x :: more => format_f x ++ printf rest more
      | _ => EmptyString
      end
  | String c rest => String c (printf rest args)
  | EmptyString => EmptyString
  end.

End Stdio.

(** ** Data object library *)

Inductive Kind : Type := KString | KInteger | KFloat.

Module StringObject.
Record t : Type := { strData : string; encoding : string }.

(** [StringObject(const std::string&, const std::string&)] *)
Definition new (strData0 encoding0 : string) : t :=
  {| strData := strData0; encoding := encoding0 |}.

Definition getStringData (this : t) : string := strData this.
Definition getEncoding (this : t) : string := encoding this.
End StringObject.

(** [int] members are integers ([Z]); the class only stores and
    returns them, so no arithmetic and no wrap-around takes place. *)
Module IntegerObject.
Record t : Type := { intValue : Z; width : Z }.

(** [IntegerObject(const int, const int)] *)
Definition new (intValue0 width0 : Z) : t :=
  {| intValue := intValue0; width := width0 |}.

Definition getIntValue (this : t) : Z := intValue this.
Definition getWidthBits (this : t) : Z := width this.
End IntegerObject.

Module FloatObject.
Record t : Type := { floatValue : spec_float; floatType : string }.

(** [FloatObject(const float, const std::string)] *)
Definition new (floatValue0 : spec_float) (floatType0 : string) : t :=
  {| floatValue := floatValue0; floatType := floatType0 |}.

Definition getFloatValue (this : t) : spec_float := floatValue this.
Definition getFloatType (this : t) : string := floatType this.

(** The constructor called with an argument of a wider floating
    type: the argument is converted to the parameter type [float]
    before the body runs. *)
Definition new_converting (x : spec_float) (floatType0 : string) : t :=
  new (CFloat.to_float x) floatType0.
End FloatObject.

(** The dynamic type of an object reached through [const DataObject*]. *)
Inductive DataObject : Type :=
| AString (o : StringObject.t)
| AnInteger (o : IntegerObject.t)
| AFloat (o : FloatObject.t).

Definition kind_of (obj : DataObject) : Kind :=
  match obj with
  | AString _ => KString
  | AnInteger _ => KInteger
  | AFloat _ => KFloat
  end.

(** ** The visitor base class and virtual dispatch *)

(** A member function of a visitor returns or leaves by an exception. *)
Inductive completion : Type :=
| Returns
| Throws (what : string).

(** What one run of a handler body does, seen from outside: the data
    members of the visitor afterwards, the text it wrote, and how it
    ended.  The data object arrives by reference to const, so it is an
    argument and no part of the result. *)
Record effect (S : Type) : Type := MkEffect {
  members : S;
  written : string;
  ending : completion
}.
Arguments MkEffect {S} _ _ _.
Arguments members {S} _.
Arguments written {S} _.
Arguments ending {S} _.

Definition handler (S T : Type) : Type := T -> S -> effect S.

(** One entry per [visit] overload, with the object it was called on. *)
Inductive Call : Type :=
| VisitString (data : StringObject.t)
| VisitInteger (data : IntegerObject.t)
| VisitFloat (data : FloatObject.t).

Definition call_kind (c : Call) : Kind :=
  match c with
  | VisitString _ => KString
  | VisitInteger _ => KInteger
  | VisitFloat _ => KFloat
  end.

Definition call_of (obj : DataObject) : Call :=
  match obj with
  | AString o => VisitString o
  | AnInteger o => VisitInteger o
  | AFloat o => VisitFloat o
  end.

Module DataObjectVisitor.

(** The three base-class bodies are all [{}]. *)
Definition visit {S T : Type} : handler S T :=
  fun _data this => MkEffect this "" Returns.

(** A class derived from [DataObjectVisitor] with data members [S]:
    the state of a default-constructed instance and, per overload,
    the overrider if the class declares one. *)
Record derived (S : Type) : Type := Derive {
  construct : S;
  visit_StringObject : option (handler S StringObject.t);
  visit_IntegerObject : option (handler S IntegerObject.t);
  visit_FloatObject : option (handler S FloatObject.t)
}.
Arguments Derive {S} _ _ _ _.
Arguments construct {S} _.
Arguments visit_StringObject {S} _.
Arguments visit_IntegerObject {S} _.
Arguments visit_FloatObject {S} _.

(** The final overrider of one overload. *)
Definition final {S T : Type} (overrider : option (handler S T)) : handler S T :=
  match overrider with
  | Some h => h
  | None => visit
  end.

Definition overrides {S : Type} (O : derived S) (k : Kind) : bool :=
  match k with
  | KString => bool_decide (is_Some (visit_StringObject O))
  | KInteger => bool_decide (is_Some (visit_IntegerObject O))
  | KFloat => bool_decide (is_Some (visit_FloatObject O))
  end.


End DataObjectVisitor.
Import DataObjectVisitor.

(** The running program as far as one visitor sees it: the visitor's
    data members, what has been written to standard output, and the
    handler calls made so far. *)
Record World (S : Type) : Type := MkWorld {
  visitor : S;
  stdout : string;
  calls : list Call
}.
Arguments MkWorld {S} _ _ _.
Arguments visitor {S} _.
Arguments stdout {S} _.
Arguments calls {S} _.

Inductive outcome (S : Type) : Type :=
| Normal (w : World S)
| Raised (what : string) (w : World S).
Arguments Normal {S} _.
Arguments Raised {S} _ _.

Definition world_of {S : Type} (r : outcome S) : World S :=
  match r with
  | Normal w => w
  | Raised _ w => w
  end.

Definition completion_of {S : Type} (r : outcome S) : completion :=
  match r with
  | Normal _ => Returns
  | Raised what _ => Throws what
  end.

Section Dispatch.
Context {S : Type}.

(** The call [visitor.visit(data)] once overload and final overrider
    are known: the call is made, the body runs on the visitor. *)
Definition vcall (c : Call) (body : S -> effect S) (w : World S) : outcome S :=
  let r := body (visitor w) in
  let w' := MkWorld (members r) (stdout w ++ written r) (calls w ++ [c])%list in
  match ending r with
  | Returns => Normal w'
  | Throws what => Raised what w'
  end.

(** [void StringObject::accept(DataObjectVisitor& visitor) const
     { visitor.visit( *this ); }] and its two siblings. *)
Definition StringObject_accept (this : StringObject.t) (O : derived S)
  : World S -> outcome S :=
  vcall (VisitString this) (final (visit_StringObject O) this).

Definition IntegerObject_accept (this : IntegerObject.t) (O : derived S)
  : World S -> outcome S :=
  vcall (VisitInteger this) (final (visit_IntegerObject O) this).

Definition FloatObject_accept (this : FloatObject.t) (O : derived S)
  : World S -> outcome S :=
  vcall (VisitFloat this) (final (visit_FloatObject O) this).

(** [DataObject::accept] is pure virtual: a call through the base
    runs the overrider of the object's dynamic type. *)
Definition accept (obj : DataObject) (O : derived S) : World S -> outcome S :=
  match obj with
  | AString o => StringObject_accept o O
  | AnInteger o => IntegerObject_accept o O
  | AFloat o => FloatObject_accept o O
  end.

(** The handler body that [accept] ends up running for [obj]. *)
Definition handler_for (obj : DataObject) (O : derived S) : S -> effect S :=
  match obj with
  | AString o => final (visit_StringObject O) o
  | AnInteger o => final (visit_IntegerObject O) o
  | AFloat o => final (visit_FloatObject O) o
  end.

(** [for (const auto& obj: objects) { obj->accept(renderer); }]:
    an exception leaves the loop. *)
Fixpoint for_each (objects : list DataObject) (O : derived S) (w : World S)
  : outcome S :=
  match objects with
  | [] => Normal w
  | obj :: rest =>
      match accept obj O w with
      | Normal w' => for_each rest O w'
      | Raised what w' => Raised what w'
      end
  end.

End Dispatch.

(** ** A custom renderer *)

Module DataRenderer.
Import Stdio.

(** The class has no data members. *)
Definition visit_string : handler unit StringObject.t :=
  fun data this =>
    MkEffect this
      (printf ("String:     " ++ dquote ++ "%s" ++ dquote ++ "  (%s)" ++ newline)
         [ArgStr (c_str (StringObject.getStringData data));
          ArgStr (c_str (StringObject.getEncoding data))])
      Returns.

Definition visit_integer : handler unit IntegerObject.t :=
  fun data this =>
    MkEffect this
      (printf ("Integer:    %d  (%d bits)" ++ newline)
         [ArgInt (IntegerObject.getIntValue data);
          ArgInt (IntegerObject.getWidthBits data)])
      Returns.

Definition visit_float : handler unit FloatObject.t :=
  fun data this =>
    MkEffect this
      (printf ("Float:      %f  (%s)" ++ newline)
         [ArgDouble (CFloat.promote (FloatObject.getFloatValue data));
          ArgStr (c_str (FloatObject.getFloatType data))])
      Returns.

Definition class : derived unit :=
  Derive tt (Some visit_string) (Some visit_integer) (Some visit_float).
End DataRenderer.

(** ** The container, the producer and [main] *)

Definition DObjContainer : Type := list DataObject.

Definition push_back (c : DObjContainer) (obj : DataObject) : DObjContainer :=
  (c ++ [obj])%list.

Definition getObjects (_ : unit) : DObjContainer :=
  let objCont : DObjContainer := [] in
  let objCont := push_back objCont (AString (StringObject.new "Hello" "utf-8")) in
  let objCont := push_back objCont (AnInteger (IntegerObject.new 16 32)) in
  let objCont := push_back objCont (AFloat (FloatObject.new CFloat.lit_3_14f "ieee-754")) in
  objCont.

(** How the process ends: [return] from [main], or an exception that
    nothing catches. *)
Inductive exit : Type :=
| Exit (code : Z)
| Terminate (what : string).

(** The body of [main] for a given container and visitor class. *)
Definition driver {S : Type} (objects : DObjContainer) (O : derived S)
  : exit * World S :=
  let renderer := construct O in
  match for_each objects O (MkWorld renderer "" []) with
  | Normal w => (Exit 0, w)
  | Raised what w => (Terminate what, w)
  end.


(** ** Several objects and several visitor instances in one process *)

(** The container owns the data objects; every visitor instance lives
    at its own address; standard output is the one stream of the
    process. *)
Record Process (S : Type) : Type := MkProcess {
  objects : DObjContainer;
  heap : gmap nat S;
  console : string
}.
Arguments MkProcess {S} _ _ _.
Arguments objects {S} _.
Arguments heap {S} _.
Arguments console {S} _.

(** What a caller sees of one dispatch or one loop. *)
Record report : Type := MkReport {
  finished : completion;
  invoked : list Call
}.

Section Instances.
Context {S : Type}.

(** Writing back what a call through the reference [r] did.  The
    callee had the data object by reference to const and the
    container holds pointers to const: the objects are kept. *)
Definition commit (r : nat) (p : Process S) (res : outcome S) : report * Process S :=
  let w := world_of res in
  (MkReport (completion_of res) (calls w),
   MkProcess (objects p) (<[r := visitor w]> (heap p)) (stdout w)).

(** [objects[i]->accept(v)] where [v] is the instance at [r]. *)
Definition dispatch (i : nat) (r : nat) (O : derived S) (p : Process S)
  : option (report * Process S) :=
  match objects p !! i, heap p !! r with
  | Some obj, Some s => Some (commit r p (accept obj O (MkWorld s (console p) [])))
  | _, _ => None
  end.


End Instances.

(** ** Counting handler calls *)

#[global] Instance Kind_eq_dec : EqDecision Kind.
Proof. solve_decision. Defined.

Definition invocations (k : Kind) (cs : list Call) : nat :=
  List.length (List.filter (fun c => bool_decide (call_kind c = k)) cs).

(** ** Reading the expected output of the formatting scenario

    The scenario gives three lines up to layout: the words of a line
    count, not the blanks between them, and a decimal fraction stands
    for its value, so zeros at its end do not count. *)

Module Scenario.








Fixpoint count_char (x : ascii) (s : string) : nat :=
  match s with
  | EmptyString => O
  | String c rest => ((if Ascii.eqb c x then 1 else 0) + count_char x rest)%nat
  end.










End Scenario.

(** ** Visitors used as examples *)

Module Examples.

(** A visitor that counts strings and overrides nothing else. *)
Definition StringCounter : derived nat :=
  Derive 0%nat
    (Some (fun _data this => MkEffect (S this) "" Returns))
    None None.

(** A visitor whose string handler throws. *)
Definition Thrower : derived unit :=
  Derive tt
    (Some (fun _data this => MkEffect this "" (Throws "unsupported")))
    None None.

Definition hello : DataObject := AString (StringObject.new "Hello" "utf-8").
Definition sixteen : DataObject := AnInteger (IntegerObject.new 16 32).
Definition start {S : Type} (O : derived S) : World S := MkWorld (construct O) "" [].

End Examples.

(** ** Outcomes reached from a later state *)

(** The outcome [r] of a computation started with nothing written and
    no call made, seen from a start that had [out] written and the
    calls [tr] made. *)
Definition prefixed {S : Type} (out : string) (tr : list Call) (r : outcome S)
  : outcome S :=
  match r with
  | Normal w => Normal (MkWorld (visitor w) (out ++ stdout w) (tr ++ calls w)%list)
  | Raised what w =>
      Raised what (MkWorld (visitor w) (out ++ stdout w) (tr ++ calls w)%list)
  end.

(** A visitor class none of whose final overriders throws. *)
Definition never_throws {S : Type} (O : derived S) : Prop :=
  forall (obj : DataObject) (this : S), ending (handler_for obj O this) = Returns.

(** ** What a caller observes of a loop, and what a container holds *)

(** How the computation ended, the visitor's data members and the
    text on standard output. *)
Definition observed {S : Type} (r : outcome S) : completion * S * string :=
  (completion_of r, visitor (world_of r), stdout (world_of r)).

Definition count_kind (k : Kind) (objs : list DataObject) : nat :=
  List.length (List.filter (fun obj => bool_decide (kind_of obj = k)) objs).

(** The class declares an overrider for the object's kind. *)
Definition handled {S : Type} (O : derived S) (obj : DataObject) : bool :=
  overrides O (kind_of obj).

(** Two classes run the same body for every object of kind [k]. *)
Definition agree_on {S : Type} (k : Kind) (O1 O2 : derived S) : Prop :=
  forall obj : DataObject, kind_of obj = k -> handler_for obj O1 = handler_for obj O2.

(** The text [DataRenderer] writes for one object. *)
Definition render_line (obj : DataObject) : string :=
  written (handler_for obj DataRenderer.class tt).


Module MoreExamples.

(** [Examples.StringCounter] with a float handler that throws. *)
Definition PickyCounter : derived nat :=
  Derive 0%nat
    (Some (fun _data this => MkEffect (S this) "" Returns))
    None
    (Some (fun _data this => MkEffect this "" (Throws "no floats"))).

End MoreExamples.

(** ** A class that records the handler bodies it runs *)

(** A handler body that first notes in a data member of its own which
    overload it is and the object it was given, and then runs [h]. *)
Definition recorded {S T : Type} (tag : T -> Call) (h : handler S T)
  : handler (S * list Call) T :=
  fun data this =>
    let r := h data (fst this) in
    MkEffect (members r, (snd this ++ [tag data])%list) (written r) (ending r).

(** The class derived from [O] that overrides every overload by such a
    body around the final overrider of [O]; the list is empty in a new
    instance. *)
Definition Recording {S : Type} (O : derived S) : derived (S * list Call) :=
  Derive (construct O, [])
    (Some (recorded VisitString (final (visit_StringObject O))))
    (Some (recorded VisitInteger (final (visit_IntegerObject O))))
    (Some (recorded VisitFloat (final (visit_FloatObject O)))).

(** The outcome [r] with a list beside the data members. *)
Definition with_log {S : Type} (log : list Call) (r : outcome S)
  : outcome (S * list Call) :=
  match r with
  | Normal w => Normal (MkWorld (visitor w, log) (stdout w) (calls w))
  | Raised what w => Raised what (MkWorld (visitor w, log) (stdout w) (calls w))
  end.

(** ** Static data members, and two visitor variables of one class *)

(** A class with data members [S] and static data members [G] is a
    [derived (S * G)]: its handlers see and may change both, and
    [construct] gives the members of a new instance beside the value
    the statics have when the program starts. *)


(** No handler of [O] changes the statics. *)
Definition leaves_statics {S G : Type} (O : derived (S * G)) : Prop :=
  forall (obj : DataObject) (s : S) (g : G),
    snd (members (handler_for obj O (s, g))) = g.


(** A handler of a class without statics, in a program that has some. *)
Definition beside_statics {S G T : Type} (h : handler S T) : handler (S * G) T :=
  fun data this =>
    let r := h data (fst this) in
    MkEffect (members r, snd this) (written r) (ending r).

Definition without_statics {S G : Type} (g0 : G) (O : derived S) : derived (S * G) :=
  Derive (construct O, g0)
    (option_map beside_statics (visit_StringObject O))
    (option_map beside_statics (visit_IntegerObject O))
    (option_map beside_statics (visit_FloatObject O)).

Module StaticExamples.


End StaticExamples.

(** ** Binary floating-point values as numbers *)








(** * Properties *)

(** ** Strings and call counts *)

Lemma string_app_cons (c : ascii) (a b : string) :
  String c a ++ b = String c (a ++ b).
Proof. reflexivity. Qed.

Lemma string_app_nil_r (s : string) : s ++ "" = s.
Proof.
  induction s as [|c s IH]; [reflexivity|].
  now rewrite string_app_cons, IH.
Qed.

Lemma string_app_assoc (a b c : string) : (a ++ b) ++ c = a ++ (b ++ c).
Proof.
  induction a as [|x a IH]; [reflexivity|].
  now rewrite !string_app_cons, IH.
Qed.


Lemma invocations_app (k : Kind) (cs ds : list Call) :
  invocations k (cs ++ ds) = (invocations k cs + invocations k ds)%nat.
Proof.
  unfold invocations. now rewrite List.filter_app, List.length_app.
Qed.

Lemma invocations_one (k : Kind) (c : Call) :
  invocations k [c] = if bool_decide (k = call_kind c) then 1%nat else 0%nat.
Proof.
  unfold invocations; simpl.
  destruct (decide (call_kind c = k)) as [E|N].
  - rewrite bool_decide_eq_true_2 by exact E.
    now rewrite bool_decide_eq_true_2 by (symmetry; exact E).
  - rewrite bool_decide_eq_false_2 by exact N.
    now rewrite bool_decide_eq_false_2 by (intros E; apply N; symmetry; exact E).
Qed.

Lemma call_kind_of (obj : DataObject) : call_kind (call_of obj) = kind_of obj.
Proof. now destruct obj. Qed.

(** ** One dispatch *)

Section OneDispatch.
Context {S : Type}.
Implicit Types (O : derived S) (w : World S) (obj : DataObject).

Lemma accept_vcall obj O w :
  accept obj O w = vcall (call_of obj) (handler_for obj O) w.
Proof. destruct obj; reflexivity. Qed.

Lemma vcall_world c (body : S -> effect S) w :
  world_of (vcall c body w)
  = MkWorld (members (body (visitor w)))
            (stdout w ++ written (body (visitor w)))
            (calls w ++ [c]).
Proof. unfold vcall. now destruct (ending (body (visitor w))). Qed.

Lemma vcall_completion c (body : S -> effect S) w :
  completion_of (vcall c body w) = ending (body (visitor w)).
Proof. unfold vcall. now destruct (ending (body (visitor w))). Qed.

Lemma handler_for_default obj O :
  overrides O (kind_of obj) = false ->
  handler_for obj O = fun this => MkEffect this "" Returns.
Proof.
  destruct obj as [o|o|o]; cbn [kind_of overrides handler_for]; intros H;
    apply bool_decide_eq_false in H.
  - destruct (visit_StringObject O) as [h|]; [exfalso; apply H; eauto | reflexivity].
  - destruct (visit_IntegerObject O) as [h|]; [exfalso; apply H; eauto | reflexivity].
  - destruct (visit_FloatObject O) as [h|]; [exfalso; apply H; eauto | reflexivity].
Qed.

End OneDispatch.

(** C4.  When the visitor class declares no overrider for the kind of
    the object, dispatching the object returns normally, leaves the
    visitor's data members as they were and writes nothing; in a
    process the whole state after the dispatch equals the state
    before it. *)
Theorem unhandled_kind_is_silent
    {S : Type} (obj : DataObject) (O : derived S) (w : World S)
    (Hno : overrides O (kind_of obj) = false) :
  completion_of (accept obj O w) = Returns
  /\ visitor (world_of (accept obj O w)) = visitor w
  /\ stdout (world_of (accept obj O w)) = stdout w
  /\ forall (i r : nat) (p : Process S) (s : S),
       objects p !! i = Some obj -> heap p !! r = Some s ->
       exists rep, dispatch i r O p = Some (rep, p).
Proof.
  rewrite accept_vcall, vcall_world, vcall_completion.
  rewrite (handler_for_default obj O Hno). cbn.
  repeat split; try apply string_app_nil_r.
  intros i r p s Hi Hr. unfold dispatch. rewrite Hi, Hr.
  rewrite accept_vcall. unfold commit.
  rewrite vcall_world, vcall_completion, (handler_for_default obj O Hno). cbn.
  eexists. f_equal. f_equal.
  destruct p as [objs h out]; cbn in *.
  rewrite string_app_nil_r. f_equal. now apply insert_id.
Qed.

Lemma unhandled_kind_is_silent_witness :
  let w := MkWorld 7%nat "so far" [] in
  overrides Examples.StringCounter (kind_of Examples.sixteen) = false
  /\ completion_of (accept Examples.sixteen Examples.StringCounter w) = Returns
  /\ visitor (world_of (accept Examples.sixteen Examples.StringCounter w)) = 7%nat
  /\ stdout (world_of (accept Examples.sixteen Examples.StringCounter w)) = "so far".
Proof.
  cbv zeta. split; [reflexivity|].
  destruct (unhandled_kind_is_silent Examples.sixteen Examples.StringCounter
              (MkWorld 7%nat "so far" []) eq_refl) as (Hc & Hv & Ho & _).
  repeat split; assumption.
Defined.

(** ** Completion of a dispatch *)

Lemma renderer_handlers_return (obj : DataObject) (this : unit) :
  ending (handler_for obj DataRenderer.class this) = Returns.
Proof. destruct obj; reflexivity. Qed.

(** C6, the claim as worded fails: a visitor whose string handler
    throws makes the dispatch of a string object end by that
    exception, so not every well-typed pair returns. *)
Lemma accept_passes_on_a_throw :
  accept Examples.hello Examples.Thrower (Examples.start Examples.Thrower)
  = Raised "unsupported" (MkWorld tt "" [call_of Examples.hello])
  /\ ~ (forall (obj : DataObject) (O : derived unit) (w : World unit),
          completion_of (accept obj O w) = Returns).
Proof.
  split; [reflexivity|].
  intros H.
  specialize (H Examples.hello Examples.Thrower (Examples.start Examples.Thrower)).
  discriminate H.
Qed.

(** C6, amended.  A dispatch adds no failure of its own: for every
    object, visitor class and state it makes its single handler call
    and ends exactly as that handler ends, returning when the handler
    returns and passing the exception on when it throws.  With the
    base-class handlers and with [DataRenderer] it always returns. *)
Theorem accept_ends_as_its_handler
    {S : Type} (obj : DataObject) (O : derived S) (w : World S) :
  completion_of (accept obj O w) = ending (handler_for obj O (visitor w))
  /\ calls (world_of (accept obj O w)) = (calls w ++ [call_of obj])%list
  /\ (forall c : S, completion_of (accept obj (Derive c None None None) w) = Returns)
  /\ (forall u : World unit, completion_of (accept obj DataRenderer.class u) = Returns).
Proof.
  rewrite accept_vcall, vcall_completion, vcall_world.
  repeat split.
  - intros c. rewrite accept_vcall, vcall_completion. now destruct obj.
  - intros u. rewrite accept_vcall, vcall_completion. apply renderer_handlers_return.
Qed.

(** ** The loop *)

Section Loop.
Context {S : Type}.
Implicit Types (O : derived S) (w : World S) (objs : list DataObject).

Lemma for_each_nil O w : for_each [] O w = Normal w.
Proof. reflexivity. Qed.

Lemma for_each_cons obj objs O w :
  for_each (obj :: objs) O w
  = match accept obj O w with
    | Normal w' => for_each objs O w'
    | Raised what w' => Raised what w'
    end.
Proof. reflexivity. Qed.

Lemma for_each_normal_calls objs O : forall w w',
  for_each objs O w = Normal w' ->
  calls w' = (calls w ++ List.map call_of objs)%list.
Proof.
  induction objs as [|obj objs IH]; intros w w' H.
  - inversion H; subst. now rewrite List.app_nil_r.
  - rewrite for_each_cons in H.
    destruct (accept obj O w) as [w1|what w1] eqn:E; [|discriminate H].
    rewrite (IH w1 w' H).
    assert (Hw1 : calls w1 = (calls w ++ [call_of obj])%list).
    { change w1 with (world_of (Normal w1)). rewrite <- E.
      now rewrite accept_vcall, vcall_world. }
    rewrite Hw1, <- List.app_assoc. reflexivity.
Qed.

Lemma for_each_returns objs O :
  never_throws O -> forall w, exists w', for_each objs O w = Normal w'.
Proof.
  intros HO. induction objs as [|obj objs IH]; intros w.
  - now exists w.
  - rewrite for_each_cons.
    destruct (accept obj O w) as [w1|what w1] eqn:E; [apply IH|].
    exfalso.
    assert (Hc : completion_of (accept obj O w) = Throws what) by now rewrite E.
    rewrite accept_vcall, vcall_completion, HO in Hc. discriminate Hc.
Qed.

End Loop.

Lemma renderer_never_throws : never_throws DataRenderer.class.
Proof. intros obj this. apply renderer_handlers_return. Qed.


(** C7.  Over an empty container the loop makes no handler call and
    raises nothing, whatever the visitor class and state, and the body
    of [main] run on an empty container returns 0 with nothing written
    and the visitor as constructed. *)
Theorem empty_sequence_invokes_nothing {S : Type} (O : derived S) (w : World S) :
  for_each [] O w = Normal w
  /\ (forall k : Kind,
        invocations k (calls (world_of (for_each [] O w))) = invocations k (calls w))
  /\ completion_of (for_each [] O w) = Returns
  /\ driver [] O = (Exit 0, MkWorld (construct O) "" []).
Proof.
  rewrite for_each_nil. cbn [world_of completion_of].
  repeat split.
Qed.

(** ** Constructors and accessors *)

(** C8.  Each accessor returns the constructor argument it is named
    after, for all three classes. *)
Theorem accessors_return_constructor_arguments :
  (forall s e : string,
      StringObject.getStringData (StringObject.new s e) = s
      /\ StringObject.getEncoding (StringObject.new s e) = e)
  /\ (forall i w : Z,
      IntegerObject.getIntValue (IntegerObject.new i w) = i
      /\ IntegerObject.getWidthBits (IntegerObject.new i w) = w)
  /\ (forall (f : spec_float) (t : string),
      FloatObject.getFloatValue (FloatObject.new f t) = f
      /\ FloatObject.getFloatType (FloatObject.new f t) = t).
Proof.
  repeat split.
Qed.

(** ** The producer *)

Lemma lit_3_14f_value : CFloat.lit_3_14f = S754_finite false 13170115 (-22).
Proof. vm_compute. reflexivity. Qed.

(** [13170115 * 2^-22] is within half a unit in the last place of
    314/100, and it is a binary32 value. *)
Lemma lit_3_14f_nearest :
  CFloat.is_float CFloat.lit_3_14f = true
  /\ 2 * Z.abs (13170115 * 100 - 314 * 2 ^ 22) < 100.
Proof. split; [vm_compute; reflexivity | vm_compute; reflexivity]. Qed.

(** C9.  [getObjects] returns three objects: the string object
    ("Hello", "utf-8"), the integer object (16, 32) and the float
    object (3.14f, "ieee-754"), in this order, and every call returns
    the same container. *)
Theorem getObjects_returns_the_three_objects :
  getObjects tt
  = [ AString (StringObject.new "Hello" "utf-8");
      AnInteger (IntegerObject.new 16 32);
      AFloat (FloatObject.new (S754_finite false 13170115 (-22)) "ieee-754") ]
  /\ List.length (getObjects tt) = 3%nat
  /\ List.map kind_of (getObjects tt) = [KString; KInteger; KFloat]
  /\ forall call1 call2 : unit, getObjects call1 = getObjects call2.
Proof.
  assert (E : getObjects tt
              = [ AString (StringObject.new "Hello" "utf-8");
                  AnInteger (IntegerObject.new 16 32);
                  AFloat (FloatObject.new CFloat.lit_3_14f "ieee-754") ])
    by reflexivity.
  rewrite E, lit_3_14f_value.
  do 3 (split; [reflexivity|]).
  intros [] []. reflexivity.
Qed.

(** ** The loop does not read what was written or called before *)

Section Prefix.
Context {S : Type}.
Implicit Types (O : derived S) (s : S) (out : string) (tr : list Call).

Lemma prefixed_prefixed out1 tr1 out2 tr2 (r : outcome S) :
  prefixed out1 tr1 (prefixed out2 tr2 r)
  = prefixed (out1 ++ out2) (tr1 ++ tr2)%list r.
Proof.
  destruct r as [w|what w]; cbn [prefixed visitor stdout calls];
    now rewrite string_app_assoc, List.app_assoc.
Qed.



Lemma vcall_prefixed c (body : S -> effect S) s out tr :
  vcall c body (MkWorld s out tr) = prefixed out tr (vcall c body (MkWorld s "" [])).
Proof.
  unfold vcall. cbn [visitor stdout calls].
  destruct (ending (body s)); reflexivity.
Qed.

Lemma accept_prefixed obj O s out tr :
  accept obj O (MkWorld s out tr) = prefixed out tr (accept obj O (MkWorld s "" [])).
Proof. rewrite !accept_vcall. apply vcall_prefixed. Qed.

Lemma for_each_prefixed objs O : forall s out tr,
  for_each objs O (MkWorld s out tr)
  = prefixed out tr (for_each objs O (MkWorld s "" [])).
Proof.
  induction objs as [|obj objs IH]; intros s out tr.
  - cbn. now rewrite string_app_nil_r, List.app_nil_r.
  - rewrite !for_each_cons, accept_prefixed.
    destruct (accept obj O (MkWorld s "" [])) as [[s1 out1 tr1]|what w1];
      cbn [prefixed visitor stdout calls]; [|reflexivity].
    rewrite (IH s1 (out ++ out1) (tr ++ tr1)%list), (IH s1 out1 tr1).
    now rewrite prefixed_prefixed.
Qed.

End Prefix.


(** ** The formatting scenario *)


(** ** Single precision and [%f] *)

(** *** Rounding to binary32 *)

Lemma digits2_pos_log2 (m : positive) :
  Z.pos (digits2_pos m) = Z.log2 (Z.pos m) + 1.
Proof.
  induction m as [m IH|m IH|].
  - cbn [digits2_pos]. rewrite Pos2Z.inj_succ, IH.
    change (Z.pos m~1) with (2 * Z.pos m + 1).
    rewrite Z.log2_succ_double by lia. lia.
  - cbn [digits2_pos]. rewrite Pos2Z.inj_succ, IH.
    change (Z.pos m~0) with (2 * Z.pos m).
    rewrite Z.log2_double by lia. lia.
  - reflexivity.
Qed.

Lemma Zdigits2_log2 (z : Z) : 0 < z -> Zdigits2 z = Z.log2 z + 1.
Proof. destruct z as [|m|m]; try lia. intros _. apply digits2_pos_log2. Qed.

Lemma shr_1_m (mrs : shr_record) :
  0 <= shr_m mrs -> shr_m (shr_1 mrs) = shr_m mrs / 2.
Proof.
  destruct mrs as [m r s]. cbn [shr_m]. intros Hm.
  rewrite <- Z.div2_div.
  destruct m as [|[p|p|]|p]; try reflexivity; lia.
Qed.

Lemma iter_pos_nat {A : Type} (f : A -> A) (n : positive) : forall x : A,
  SpecFloat.iter_pos f n x = Nat.iter (Pos.to_nat n) f x.
Proof.
  induction n as [n IH|n IH|]; intros x; cbn [SpecFloat.iter_pos].
  - rewrite !IH, Pos2Nat.inj_xI, <- Nat.iter_add, <- Nat.iter_succ_r.
    f_equal. lia.
  - rewrite !IH, Pos2Nat.inj_xO, <- Nat.iter_add. f_equal. lia.
  - reflexivity.
Qed.

Lemma iter_shr_1_m (k : nat) : forall mrs : shr_record,
  0 <= shr_m mrs ->
  shr_m (Nat.iter k shr_1 mrs) = shr_m mrs / 2 ^ Z.of_nat k.
Proof.
  induction k as [|k IH]; intros mrs Hm.
  - cbn. now rewrite Z.div_1_r.
  - rewrite Nat.iter_succ, shr_1_m; rewrite IH by exact Hm.
    + rewrite Nat2Z.inj_succ, Z.pow_succ_r by lia.
      rewrite Z.div_div by lia. f_equal. lia.
    + apply Z.div_pos; [exact Hm | apply Z.pow_pos_nonneg; lia].
Qed.

Lemma shr_fexp_spec (mx ex : Z) (lx : location) :
  0 <= mx ->
  let n := fexp CFloat.prec CFloat.emax (Zdigits2 mx + ex) - ex in
  0 <= n ->
  shr_m (fst (shr_fexp CFloat.prec CFloat.emax mx ex lx)) = mx / 2 ^ n
  /\ snd (shr_fexp CFloat.prec CFloat.emax mx ex lx) = ex + n.
Proof.
  intros Hm n Hn. unfold shr_fexp. fold n.
  assert (Hrec : shr_m (shr_record_of_loc mx lx) = mx)
    by (destruct lx as [|[]]; reflexivity).
  destruct n as [|p|p] eqn:E; try lia.
  - cbn [shr fst snd]. rewrite Hrec, Z.div_1_r. lia.
  - cbn [shr fst snd]. rewrite iter_pos_nat, iter_shr_1_m by lia.
    rewrite Hrec, positive_nat_Z. split; reflexivity.
Qed.

Lemma shr_fexp_unshifted (mx ex : Z) (lx : location) :
  fexp CFloat.prec CFloat.emax (Zdigits2 mx + ex) - ex <= 0 ->
  shr_m (fst (shr_fexp CFloat.prec CFloat.emax mx ex lx)) = mx
  /\ snd (shr_fexp CFloat.prec CFloat.emax mx ex lx) = ex.
Proof.
  intros Hn. unfold shr_fexp.
  assert (Hrec : shr_m (shr_record_of_loc mx lx) = mx)
    by (destruct lx as [|[]]; reflexivity).
  destruct (fexp CFloat.prec CFloat.emax (Zdigits2 mx + ex) - ex) as [|p|p]; try lia;
    cbn [shr fst snd]; now rewrite Hrec.
Qed.

Lemma round_nearest_even_range (m : Z) (l : location) :
  m <= round_nearest_even m l <= m + 1.
Proof.
  destruct l as [|[]]; cbn [round_nearest_even]; try lia.
  destruct (Z.even m); lia.
Qed.

Lemma fexp_mono (a b : Z) : a <= b -> fexp CFloat.prec CFloat.emax a <= fexp CFloat.prec CFloat.emax b.
Proof. unfold fexp, emin, CFloat.prec, CFloat.emax. lia. Qed.

Lemma log2_div_pow2 (a n : Z) :
  0 < a -> 0 <= n -> Z.log2 (a / 2 ^ n) = Z.max 0 (Z.log2 a - n).
Proof.
  intros Ha Hn. rewrite <- Z.shiftr_div_pow2 by exact Hn.
  now apply Z.log2_shiftr.
Qed.

Lemma binary_round_aux_valid (s : bool) (mx ex : Z) (lx : location) :
  0 < mx ->
  ex <= fexp CFloat.prec CFloat.emax (Zdigits2 mx + ex) ->
  valid_binary CFloat.prec CFloat.emax (binary_round_aux CFloat.prec CFloat.emax s mx ex lx) = true.
Proof.
  intros Hmx Hex. unfold binary_round_aux.
  destruct (shr_fexp_spec mx ex lx ltac:(lia) ltac:(lia)) as [Hm' He'].
  destruct (shr_fexp CFloat.prec CFloat.emax mx ex lx) as [mrs' e'] eqn:E1.
  cbn [fst snd] in Hm', He'.
  set (n := fexp CFloat.prec CFloat.emax (Zdigits2 mx + ex) - ex) in *.
  set (m1 := round_nearest_even (shr_m mrs') (loc_of_shr_record mrs')).
  pose proof (round_nearest_even_range (shr_m mrs') (loc_of_shr_record mrs')) as Hm1.
  fold m1 in Hm1.
  destruct (shr_fexp CFloat.prec CFloat.emax m1 e' loc_Exact) as [mrs'' e''] eqn:E2.
  destruct (shr_m mrs'') as [|m|m] eqn:Em; try reflexivity.
  destruct (e'' <=? CFloat.emax - CFloat.prec)%Z eqn:Hle; [|reflexivity].
  cbn [valid_binary]. unfold bounded. rewrite Hle, andb_true_r.
  unfold canonical_mantissa. apply Z.eqb_eq.
  assert (Hm'0 : 0 <= shr_m mrs').
  { rewrite Hm'. apply Z.div_pos; [lia | apply Z.pow_pos_nonneg; lia]. }
  assert (Hm1pos : 0 < m1).
  { destruct (Z.eq_dec m1 0) as [Z0|]; [|lia].
    exfalso. rewrite Z0 in E2.
    destruct (Z_le_gt_dec (fexp CFloat.prec CFloat.emax (Zdigits2 0 + e') - e') 0) as [Hn0|Hn0].
    - destruct (shr_fexp_unshifted 0 e' loc_Exact Hn0) as [H0 _].
      rewrite E2 in H0. cbn [fst] in H0. congruence.
    - destruct (shr_fexp_spec 0 e' loc_Exact ltac:(lia) ltac:(lia)) as [H0 _].
      rewrite E2 in H0. cbn [fst] in H0. rewrite Z.div_0_l in H0; [congruence|].
      apply Z.pow_nonzero; lia. }
  assert (Hlog : Z.log2 mx - n <= Z.log2 m1).
  { transitivity (Z.log2 (shr_m mrs')).
    - rewrite Hm', log2_div_pow2 by lia. lia.
    - apply Z.log2_le_mono. lia. }
  assert (Hn' : 0 <= fexp CFloat.prec CFloat.emax (Zdigits2 m1 + e') - e').
  { rewrite (Zdigits2_log2 m1 Hm1pos).
    assert (fexp CFloat.prec CFloat.emax (Zdigits2 mx + ex)
            <= fexp CFloat.prec CFloat.emax (Z.log2 m1 + 1 + e')).
    { apply fexp_mono. rewrite (Zdigits2_log2 mx Hmx). lia. }
    lia. }
  destruct (shr_fexp_spec m1 e' loc_Exact ltac:(lia) Hn') as [Hm'' He''].
  rewrite E2 in Hm'', He''. cbn [fst snd] in Hm'', He''.
  set (n' := fexp CFloat.prec CFloat.emax (Zdigits2 m1 + e') - e') in *.
  rewrite digits2_pos_log2, <- Em, Hm'', log2_div_pow2 by lia.
  assert (Hfit : n' <= Z.log2 m1).
  { destruct (Z_le_gt_dec n' (Z.log2 m1)) as [|Hgt]; [assumption|].
    exfalso.
    assert (m1 < 2 ^ n') by (apply Z.log2_lt_pow2; lia).
    rewrite Z.div_small in Hm'' by lia. congruence. }
  rewrite Z.max_r by lia. rewrite He''.
  replace (Z.log2 m1 - n' + 1 + (e' + n')) with (Zdigits2 m1 + e')
    by (rewrite (Zdigits2_log2 m1 Hm1pos); lia).
  unfold n'. lia.
Qed.

Lemma shl_align_aligned (m : positive) (e : Z) :
  let mz := fst (shl_align m e (fexp CFloat.prec CFloat.emax (Z.pos (digits2_pos m) + e))) in
  let ez := snd (shl_align m e (fexp CFloat.prec CFloat.emax (Z.pos (digits2_pos m) + e))) in
  ez <= fexp CFloat.prec CFloat.emax (Zdigits2 (Z.pos mz) + ez).
Proof.
  cbv zeta. unfold shl_align.
  set (e0 := fexp CFloat.prec CFloat.emax (Z.pos (digits2_pos m) + e)).
  destruct (e0 - e) as [|d|d] eqn:E; cbn [fst snd Zdigits2]; fold e0; try lia.
  change (Pos.iter xO m d) with (shift_pos d m).
  rewrite !digits2_pos_log2, shift_pos_correct.
  change (Zpower_pos 2 d) with (2 ^ Z.pos d).
  rewrite Z.mul_comm, Z.log2_mul_pow2 by lia.
  replace (Z.pos d + Z.log2 (Z.pos m) + 1 + e0) with (Z.log2 (Z.pos m) + 1 + e) by lia.
  unfold e0. rewrite digits2_pos_log2. lia.
Qed.

Lemma binary_round_valid (s : bool) (m : positive) (e : Z) :
  valid_binary CFloat.prec CFloat.emax (binary_round CFloat.prec CFloat.emax s m e) = true.
Proof.
  unfold binary_round.
  pose proof (shl_align_aligned m e) as H. cbv zeta in H.
  destruct (shl_align m e (fexp CFloat.prec CFloat.emax (Z.pos (digits2_pos m) + e))) as [mz ez].
  cbn [fst snd] in H.
  apply binary_round_aux_valid; [lia | exact H].
Qed.

(** Conversion to [float] yields a binary32 value, whatever the
    argument. *)
Lemma to_float_is_float (x : spec_float) :
  CFloat.is_float (CFloat.to_float x) = true.
Proof.
  destruct x as [s|s| |s m e]; try reflexivity.
  apply binary_round_valid.
Qed.

Lemma to_float_of_float (x : spec_float) :
  CFloat.is_float x = true -> CFloat.to_float x = x.
Proof.
  destruct x as [s|s| |s m e]; try reflexivity.
  unfold CFloat.is_float, valid_binary, bounded, canonical_mantissa.
  intros H. apply andb_prop in H as [Hc Hb].
  apply Z.eqb_eq in Hc.
  unfold CFloat.to_float, binary_round, shl_align.
  rewrite Hc, Z.sub_diag.
  unfold binary_round_aux, shr_fexp, Zdigits2.
  rewrite Hc, Z.sub_diag. cbn [shr shr_record_of_loc shr_m loc_of_shr_record
                                round_nearest_even].
  rewrite Hc, Z.sub_diag. cbn [shr shr_record_of_loc shr_m].
  now rewrite Hb.
Qed.






(** * Further properties of the code *)

(** ** The loop over a container *)

Section LoopLaws.
Context {S : Type}.
Implicit Types (O : derived S) (w : World S) (objs : list DataObject).

Lemma for_each_one obj O w : for_each [obj] O w = accept obj O w.
Proof. rewrite for_each_cons. now destruct (accept obj O w). Qed.

Lemma observed_prefixed out tr (r : outcome S) :
  observed (prefixed out tr r)
  = (completion_of r, visitor (world_of r), out ++ stdout (world_of r)).
Proof. now destruct r. Qed.

(** What is observed of a loop does not depend on the calls logged
    before it. *)
Lemma observed_for_each_calls objs O (s : S) (out : string) (tr tr' : list Call) :
  observed (for_each objs O (MkWorld s out tr))
  = observed (for_each objs O (MkWorld s out tr')).
Proof.
  rewrite (for_each_prefixed objs O s out tr), (for_each_prefixed objs O s out tr').
  now rewrite !observed_prefixed.
Qed.

Lemma accept_unhandled obj O w :
  handled O obj = false ->
  accept obj O w = Normal (MkWorld (visitor w) (stdout w) (calls w ++ [call_of obj])).
Proof.
  intros H. rewrite accept_vcall. unfold vcall.
  rewrite (handler_for_default obj O H). cbn [members written ending].
  now rewrite string_app_nil_r.
Qed.

Lemma invocations_map_call_of (k : Kind) objs :
  invocations k (List.map call_of objs) = count_kind k objs.
Proof.
  unfold invocations, count_kind.
  induction objs as [|obj objs IH]; [reflexivity|].
  cbn [List.map List.filter]. rewrite call_kind_of.
  destruct (bool_decide (kind_of obj = k)); cbn [List.length]; now rewrite IH.
Qed.

End LoopLaws.

(** X1.  The loop over two containers one after the other is the loop
    over the first followed, when it returned, by the loop over the
    second from the state the first left; when the first ends by an
    exception the second is not entered.  In particular the loop over
    [push_back c obj] is the loop over [c] followed by the dispatch of
    [obj]: objects are visited in the order they were pushed. *)
Theorem for_each_app {S : Type} (O : derived S) (a b : list DataObject) (w : World S) :
  for_each (a ++ b) O w
  = match for_each a O w with
    | Normal w' => for_each b O w'
    | Raised what w' => Raised what w'
    end
  /\ forall (c : DObjContainer) (obj : DataObject),
       for_each (push_back c obj) O w
       = match for_each c O w with
         | Normal w' => accept obj O w'
         | Raised what w' => Raised what w'
         end.
Proof.
  assert (Happ : forall (x y : list DataObject) (u : World S),
            for_each (x ++ y) O u
            = match for_each x O u with
              | Normal w' => for_each y O w'
              | Raised what w' => Raised what w'
              end).
  { induction x as [|obj x IH]; intros y u; [reflexivity|].
    rewrite <- List.app_comm_cons, !for_each_cons.
    destruct (accept obj O u) as [u1|what u1]; [apply IH | reflexivity]. }
  split; [apply Happ|].
  intros c obj. unfold push_back. rewrite Happ.
  destruct (for_each c O w) as [w'|what w']; [apply for_each_one | reflexivity].
Qed.

(** X3.  The loop has no handler of its own for exceptions: when the
    objects before [obj] were handled normally and the handler for
    [obj] throws, the loop ends by that exception in the state the
    handler left, the objects after [obj] are not visited, and the
    body of [main] does not reach its [return]. *)
Theorem loop_stops_at_first_throw
    {S : Type} (pre post : list DataObject) (obj : DataObject)
    (O : derived S) (w w1 : World S) (what : string)
    (Hpre : for_each pre O w = Normal w1)
    (Hthrow : ending (handler_for obj O (visitor w1)) = Throws what) :
  for_each (pre ++ obj :: post) O w
  = Raised what
      (MkWorld (members (handler_for obj O (visitor w1)))
               (stdout w1 ++ written (handler_for obj O (visitor w1)))
               (calls w ++ List.map call_of pre ++ [call_of obj]))
  /\ (w = MkWorld (construct O) "" [] ->
      fst (driver (pre ++ obj :: post)%list O) = Terminate what).
Proof.
  assert (E : for_each (pre ++ obj :: post)%list O w
              = Raised what
                  (MkWorld (members (handler_for obj O (visitor w1)))
                     (stdout w1 ++ written (handler_for obj O (visitor w1)))
                     (calls w ++ List.map call_of pre ++ [call_of obj])%list)).
  { clear -Hpre Hthrow.
    revert w Hpre. induction pre as [|p pre IH]; intros w Hpre.
    - inversion Hpre; subst w1. cbn [List.app List.map].
      rewrite for_each_cons, accept_vcall. unfold vcall. now rewrite Hthrow.
    - rewrite for_each_cons in Hpre. rewrite <- List.app_comm_cons, for_each_cons.
      destruct (accept p O w) as [u|? u] eqn:Ep; [|discriminate Hpre].
      rewrite (IH u Hpre). do 2 f_equal.
      assert (Hu : calls u = (calls w ++ [call_of p])%list).
      { change u with (world_of (Normal u)). rewrite <- Ep.
        now rewrite accept_vcall, vcall_world. }
      rewrite Hu. cbn [List.map]. now rewrite <- !List.app_assoc. }
  split; [exact E|].
  intros ->. unfold driver. now rewrite E.
Qed.

Lemma loop_stops_at_first_throw_witness :
  for_each ([Examples.sixteen] ++ Examples.hello :: [Examples.sixteen; Examples.hello])
    Examples.Thrower (MkWorld tt "" [])
  = Raised "unsupported"
      (MkWorld tt "" [call_of Examples.sixteen; call_of Examples.hello])
  /\ fst (driver
            ([Examples.sixteen] ++ Examples.hello :: [Examples.sixteen; Examples.hello])%list
            Examples.Thrower) = Terminate "unsupported".
Proof.
  destruct (loop_stops_at_first_throw [Examples.sixteen]
              [Examples.sixteen; Examples.hello] Examples.hello Examples.Thrower
              (MkWorld tt "" []) (MkWorld tt "" [call_of Examples.sixteen])
              "unsupported" eq_refl eq_refl) as [E D].
  split; [exact E | exact (D eq_refl)].
Defined.

(** X4.  Objects of a kind the visitor class has no overrider for can
    be taken out of the container: the loop ends the same way, leaves
    the same data members in the visitor and has written the same
    text as the loop over the objects the class handles. *)
Theorem unhandled_objects_can_be_dropped
    {S : Type} (objs : list DataObject) (O : derived S) (w : World S) :
  observed (for_each objs O w)
  = observed (for_each (List.filter (handled O) objs) O w).
Proof.
  revert w. induction objs as [|obj objs IH]; intros w; [reflexivity|].
  cbn [List.filter]. destruct (handled O obj) eqn:H.
  - rewrite !for_each_cons.
    destruct (accept obj O w) as [w1|what w1]; [apply IH | reflexivity].
  - rewrite for_each_cons, (accept_unhandled obj O w H), IH.
    destruct w as [s out tr]. apply observed_for_each_calls.
Qed.

(** X5.  Only the handlers for the kinds that occur in the container
    matter: two visitor classes that run the same body for every kind
    present give the same loop, call for call. *)
Theorem handlers_of_absent_kinds_are_irrelevant
    {S : Type} (objs : list DataObject) (O1 O2 : derived S) (w : World S)
    (Hagree : forall obj : DataObject, In obj objs -> agree_on (kind_of obj) O1 O2) :
  for_each objs O1 w = for_each objs O2 w.
Proof.
  revert w. induction objs as [|obj objs IH]; intros w; [reflexivity|].
  rewrite !for_each_cons, !accept_vcall.
  rewrite (Hagree obj (or_introl eq_refl) obj eq_refl).
  destruct (vcall (call_of obj) (handler_for obj O2) w) as [w1|what w1];
    [|reflexivity].
  apply IH. intros o Ho. apply Hagree. now right.
Qed.

Lemma handlers_of_absent_kinds_are_irrelevant_witness :
  for_each [Examples.hello; Examples.sixteen; Examples.hello]
    Examples.StringCounter (MkWorld 0%nat "" [])
  = for_each [Examples.hello; Examples.sixteen; Examples.hello]
      MoreExamples.PickyCounter (MkWorld 0%nat "" []).
Proof.
  apply (handlers_of_absent_kinds_are_irrelevant
           [Examples.hello; Examples.sixteen; Examples.hello]
           Examples.StringCounter MoreExamples.PickyCounter (MkWorld 0%nat "" [])).
  intros obj [<-|[<-|[<-|[]]]] [o|o|o] Hk; try discriminate Hk; reflexivity.
Defined.

(** ** [DataRenderer] over any container *)

Lemma render_line_forms :
  (forall o : StringObject.t,
      render_line (AString o)
      = "String:     " ++ Stdio.dquote ++ Stdio.c_str (StringObject.getStringData o)
        ++ Stdio.dquote ++ "  (" ++ Stdio.c_str (StringObject.getEncoding o) ++ ")"
        ++ Stdio.newline)
  /\ (forall o : IntegerObject.t,
      render_line (AnInteger o)
      = "Integer:    " ++ Stdio.format_d (IntegerObject.getIntValue o)
        ++ "  (" ++ Stdio.format_d (IntegerObject.getWidthBits o) ++ " bits)"
        ++ Stdio.newline)
  /\ (forall o : FloatObject.t,
      render_line (AFloat o)
      = "Float:      " ++ Stdio.format_f (FloatObject.getFloatValue o)
        ++ "  (" ++ Stdio.c_str (FloatObject.getFloatType o) ++ ")"
        ++ Stdio.newline).
Proof. repeat split. Qed.

Lemma accept_renderer (obj : DataObject) (w : World unit) :
  accept obj DataRenderer.class w
  = Normal (MkWorld tt (stdout w ++ render_line obj) (calls w ++ [call_of obj])).
Proof.
  rewrite accept_vcall. unfold vcall, render_line.
  destruct w as [[] out tr]. cbn [visitor stdout calls].
  rewrite renderer_handlers_return.
  now destruct obj.
Qed.

(** X6.  Whatever the container holds, the loop with [DataRenderer]
    returns, and it has written the lines of the objects one after the
    other in container order, each line depending on its object alone;
    the body of [main] returns 0 for every container. *)
Theorem renderer_writes_one_line_per_object
    (objs : list DataObject) (w : World unit) :
  for_each objs DataRenderer.class w
  = Normal (MkWorld tt
              (stdout w ++ List.fold_right String.append "" (List.map render_line objs))
              (calls w ++ List.map call_of objs))
  /\ fst (driver objs DataRenderer.class) = Exit 0.
Proof.
  assert (E : forall u : World unit,
            for_each objs DataRenderer.class u
            = Normal (MkWorld tt
                 (stdout u ++ List.fold_right String.append "" (List.map render_line objs))
                 (calls u ++ List.map call_of objs)%list)).
  { induction objs as [|obj objs IH]; intros u.
    - cbn [List.map List.fold_right]. rewrite for_each_nil, string_app_nil_r, List.app_nil_r.
      now destruct u as [[] out tr].
    - rewrite for_each_cons, accept_renderer, IH. cbn [stdout calls List.map List.fold_right].
      now rewrite string_app_assoc, <- List.app_assoc. }
  split; [apply E|].
  unfold driver. now rewrite E.
Qed.

(** ** What the lines keep of the fields *)

Lemma c_str_app_nul (a b : string) :
  Stdio.c_str (a ++ String "000" b) = Stdio.c_str a.
Proof.
  induction a as [|c a IH]; [reflexivity|].
  rewrite string_app_cons. cbn [Stdio.c_str]. now rewrite IH.
Qed.

Lemma c_str_id_iff (s : string) :
  Stdio.c_str s = s <-> Scenario.count_char "000" s = 0%nat.
Proof.
  induction s as [|c s IH]; [split; reflexivity|].
  cbn [Stdio.c_str Scenario.count_char].
  destruct (Ascii.eqb c "000") eqn:E.
  - split; [discriminate | intros H; discriminate H].
  - rewrite Nat.add_0_l, <- IH.
    split; [intros [= H]; exact H | intros H; now rewrite H].
Qed.

(** X7.  [%s] reads a string field through [c_str()]: whatever
    follows a NUL character in the text, the encoding or the float
    type is not printed, although the accessor returns it; a field is
    printed in full exactly when it holds no NUL. *)
Theorem text_after_a_nul_is_not_printed (a b other : string) (x : spec_float) :
  render_line (AString (StringObject.new (a ++ String "000" b) other))
  = render_line (AString (StringObject.new a other))
  /\ render_line (AString (StringObject.new other (a ++ String "000" b)))
     = render_line (AString (StringObject.new other a))
  /\ render_line (AFloat (FloatObject.new x (a ++ String "000" b)))
     = render_line (AFloat (FloatObject.new x a))
  /\ StringObject.getStringData (StringObject.new (a ++ String "000" b) other)
     = a ++ String "000" b
  /\ forall s : string,
       Stdio.c_str s = s <-> Scenario.count_char "000" s = 0%nat.
Proof.
  destruct render_line_forms as (Hs & _ & Hf).
  rewrite !Hs, !Hf.
  cbn [StringObject.getStringData StringObject.getEncoding StringObject.new
       StringObject.strData StringObject.encoding
       FloatObject.getFloatType FloatObject.getFloatValue FloatObject.new
       FloatObject.floatType FloatObject.floatValue].
  rewrite !c_str_app_nul.
  repeat split; apply c_str_id_iff.
Qed.

(** *** The integer line *)

Lemma string_app_inv_head (a b c : string) : a ++ b = a ++ c -> b = c.
Proof.
  induction a as [|x a IH]; [trivial|].
  rewrite !string_app_cons. intros [= H]. now apply IH.
Qed.

Lemma to_int_not_nil (z : Z) :
  Z.to_int z <> Decimal.Pos Decimal.Nil /\ Z.to_int z <> Decimal.Neg Decimal.Nil.
Proof.
  destruct z as [|p|p]; cbn [Z.to_int]; split; intros [= H];
    exact (DecimalPos.Unsigned.to_uint_nonnil p H).
Qed.

Lemma format_d_inj (a b : Z) : Stdio.format_d a = Stdio.format_d b -> a = b.
Proof.
  unfold Stdio.format_d. intros H.
  apply (f_equal NilZero.int_of_string) in H.
  destruct (to_int_not_nil a) as [Ha1 Ha2], (to_int_not_nil b) as [Hb1 Hb2].
  rewrite !NilZero.isi in H by assumption.
  injection H as H. apply (f_equal Z.of_int) in H.
  now rewrite !DecimalZ.of_to in H.
Qed.

Lemma string_of_uint_no_blank (d : Decimal.uint) :
  Scenario.count_char " " (NilEmpty.string_of_uint d) = 0%nat.
Proof. induction d; cbn; assumption || reflexivity. Qed.

Lemma format_d_no_blank (z : Z) : Scenario.count_char " " (Stdio.format_d z) = 0%nat.
Proof.
  unfold Stdio.format_d, NilZero.string_of_int, NilZero.string_of_uint.
  destruct (Z.to_int z) as [d|d]; destruct d; cbn [Scenario.count_char];
    try reflexivity;
    match goal with
    | |- context [NilEmpty.string_of_uint ?u] =>
        pose proof (string_of_uint_no_blank u) as H; now rewrite H
    end.
Qed.

(** Two texts without a blank, each followed by a blank and a rest. *)
Lemma split_at_first_blank (a a' r r' : string) :
  Scenario.count_char " " a = 0%nat ->
  Scenario.count_char " " a' = 0%nat ->
  a ++ String " " r = a' ++ String " " r' ->
  a = a' /\ r = r'.
Proof.
  revert a'. induction a as [|c a IH]; intros [|c' a'] Ha Ha' H.
  - injection H as H. now split.
  - rewrite string_app_cons in H. injection H as Hc _. subst c'.
    cbn in Ha'. discriminate Ha'.
  - rewrite string_app_cons in H. injection H as Hc _. subst c.
    cbn in Ha. discriminate Ha.
  - rewrite !string_app_cons in H. injection H as Hc H. subst c'.
    cbn [Scenario.count_char] in Ha, Ha'.
    destruct (IH a') as [-> ->]; try assumption; try lia.
    now split.
Qed.

(** X8.  The line written for an integer object identifies the
    object: two integer objects get the same line exactly when they
    hold the same value and the same width. *)
Theorem integer_line_identifies_the_object (o1 o2 : IntegerObject.t) :
  render_line (AnInteger o1) = render_line (AnInteger o2) <-> o1 = o2.
Proof.
  split; [|now intros ->].
  destruct render_line_forms as (_ & Hi & _). rewrite !Hi.
  destruct o1 as [i1 w1], o2 as [i2 w2].
  cbn [IntegerObject.getIntValue IntegerObject.getWidthBits
       IntegerObject.intValue IntegerObject.width].
  intros H. apply string_app_inv_head in H.
  change ("  (" ++ Stdio.format_d w1 ++ " bits)" ++ Stdio.newline)
    with (String " " (String " " (String "("
            (Stdio.format_d w1 ++ String " " ("bits)" ++ Stdio.newline))))) in H.
  change ("  (" ++ Stdio.format_d w2 ++ " bits)" ++ Stdio.newline)
    with (String " " (String " " (String "("
            (Stdio.format_d w2 ++ String " " ("bits)" ++ Stdio.newline))))) in H.
  apply split_at_first_blank in H as [Hd1 Hrest]; try apply format_d_no_blank.
  injection Hrest as Hrest.
  apply split_at_first_blank in Hrest as [Hd2 _]; try apply format_d_no_blank.
  apply format_d_inj in Hd1, Hd2. now subst.
Qed.

(** *** The float line *)





(** ** Objects and their accessors *)

(** X10.  An object is what its accessors return: passing the values
    read from an object to the constructor of its class gives the
    object again.  For a float object this holds although the
    constructor converts its argument to [float], since the value read
    is a [float] already. *)
Theorem rebuilding_from_accessors_gives_the_object :
  (forall o : StringObject.t,
      StringObject.new (StringObject.getStringData o) (StringObject.getEncoding o) = o)
  /\ (forall o : IntegerObject.t,
      IntegerObject.new (IntegerObject.getIntValue o) (IntegerObject.getWidthBits o) = o)
  /\ (forall (x : spec_float) (t : string),
      let o := FloatObject.new_converting x t in
      FloatObject.new_converting (FloatObject.getFloatValue o) (FloatObject.getFloatType o)
      = o).
Proof.
  split; [now intros []|]. split; [now intros []|].
  intros x t. cbv zeta. unfold FloatObject.new_converting.
  cbn [FloatObject.getFloatValue FloatObject.getFloatType FloatObject.new
       FloatObject.floatValue FloatObject.floatType].
  now rewrite (to_float_of_float _ (to_float_is_float x)).
Qed.

(** * The handler that runs, and what it is handed *)

Section WhichHandler.
Context {S : Type}.
Implicit Types (O : derived S) (w : World S) (obj : DataObject).

Lemma observed_vcall c (body : S -> effect S) w :
  observed (vcall c body w)
  = (ending (body (visitor w)), members (body (visitor w)),
     stdout w ++ written (body (visitor w))).
Proof.
  unfold observed. now rewrite vcall_completion, vcall_world.
Qed.

(** Through the recording class a dispatch does what it does through
    [O], and the body that ran has noted itself. *)
Lemma accept_recording obj O (s : S) (log : list Call) (out : string) (tr : list Call) :
  accept obj (Recording O) (MkWorld (s, log) out tr)
  = with_log (log ++ [call_of obj])%list (accept obj O (MkWorld s out tr)).
Proof.
  destruct obj as [o|o|o]; cbn [accept call_of];
    unfold StringObject_accept, IntegerObject_accept, FloatObject_accept, vcall;
    cbn [Recording visit_StringObject visit_IntegerObject visit_FloatObject final
         recorded visitor stdout calls members written ending fst snd].
  - destruct (ending (final (visit_StringObject O) o s)); reflexivity.
  - destruct (ending (final (visit_IntegerObject O) o s)); reflexivity.
  - destruct (ending (final (visit_FloatObject O) o s)); reflexivity.
Qed.

Lemma for_each_recording objs O : forall (s : S) (log : list Call) (out : string)
    (tr : list Call) (w' : World S),
  for_each objs O (MkWorld s out tr) = Normal w' ->
  for_each objs (Recording O) (MkWorld (s, log) out tr)
  = Normal (MkWorld (visitor w', (log ++ List.map call_of objs)%list) (stdout w')
             (calls w')).
Proof.
  induction objs as [|obj objs IH]; intros s log out tr w' H.
  - inversion H; subst. cbn [List.map for_each visitor stdout calls].
    now rewrite List.app_nil_r.
  - rewrite for_each_cons in H. rewrite for_each_cons, accept_recording.
    destruct (accept obj O (MkWorld s out tr)) as [[s1 out1 tr1]|what w1];
      [|discriminate H].
    cbn [with_log visitor stdout calls].
    rewrite (IH s1 (log ++ [call_of obj])%list out1 tr1 w' H).
    cbn [List.map]. now rewrite <- List.app_assoc.
Qed.

End WhichHandler.

(** C1.  For every data object and every class derived from the
    visitor base, [accept] runs one handler body, once: the overrider
    the class declares for the overload of the object's own class,
    applied to the object and to the visitor, and the base-class body
    when the class declares none.  What the dispatch leaves in the
    visitor, writes and ends with is what that one body leaves, writes
    and ends with.  Run through the recording class, the bodies note
    exactly one entry, the overload of the object's kind with the
    object itself, so no body of another kind has run.  The count of
    calls of the object's kind goes up by one and every other count
    stays as it was. *)
Theorem accept_invokes_matching_handler_once
    {S : Type} (obj : DataObject) (O : derived S) (w : World S) :
  let after := world_of (accept obj O w) in
  let ran := fun body : S -> effect S =>
    (ending (body (visitor w)), members (body (visitor w)),
     stdout w ++ written (body (visitor w))) in
  (forall (o : StringObject.t) (h : handler S StringObject.t),
      obj = AString o -> visit_StringObject O = Some h ->
      observed (accept obj O w) = ran (h o))
  /\ (forall (o : IntegerObject.t) (h : handler S IntegerObject.t),
      obj = AnInteger o -> visit_IntegerObject O = Some h ->
      observed (accept obj O w) = ran (h o))
  /\ (forall (o : FloatObject.t) (h : handler S FloatObject.t),
      obj = AFloat o -> visit_FloatObject O = Some h ->
      observed (accept obj O w) = ran (h o))
  /\ (handled O obj = false ->
      observed (accept obj O w) = (Returns, visitor w, stdout w))
  /\ (forall log : list Call,
      observed (accept obj (Recording O) (MkWorld (visitor w, log) (stdout w) (calls w)))
      = (completion_of (accept obj O w),
         (visitor after, (log ++ [call_of obj])%list),
         stdout after))
  /\ calls after = (calls w ++ [call_of obj])%list
  /\ call_kind (call_of obj) = kind_of obj
  /\ accept obj O w = vcall (call_of obj) (handler_for obj O) w
  /\ forall k : Kind,
       invocations k (calls after)
       = (invocations k (calls w) + if bool_decide (k = kind_of obj) then 1 else 0)%nat.
Proof.
  cbv zeta.
  split; [intros o h -> Hh; cbn [accept]; unfold StringObject_accept;
          now rewrite observed_vcall, Hh|].
  split; [intros o h -> Hh; cbn [accept]; unfold IntegerObject_accept;
          now rewrite observed_vcall, Hh|].
  split; [intros o h -> Hh; cbn [accept]; unfold FloatObject_accept;
          now rewrite observed_vcall, Hh|].
  split.
  { intros Hno. rewrite accept_vcall, observed_vcall, (handler_for_default obj O Hno).
    cbn [ending members written]. now rewrite string_app_nil_r. }
  split.
  { intros log. destruct w as [s out tr]. cbn [visitor stdout calls].
    rewrite accept_recording.
    destruct (accept obj O (MkWorld s out tr)) as [w1|what w1]; reflexivity. }
  rewrite accept_vcall, vcall_world. cbn [calls].
  repeat split.
  - apply call_kind_of.
  - intros k. now rewrite invocations_app, invocations_one, call_kind_of.
Qed.

(** X2.  With a visitor class none of whose handlers throws, the loop
    over any container returns, and it has run one handler body per
    object, in container order, each on its own object: run through the
    recording class, the bodies have noted the objects of the container
    one by one, and the calls of every kind grow by the number of
    objects of that kind. *)
Theorem loop_calls_each_object_once
    {S : Type} (objs : list DataObject) (O : derived S) (w : World S)
    (HO : never_throws O) :
  exists w' : World S,
    for_each objs O w = Normal w'
    /\ (forall log : list Call,
          for_each objs (Recording O) (MkWorld (visitor w, log) (stdout w) (calls w))
          = Normal (MkWorld (visitor w', (log ++ List.map call_of objs)%list)
                      (stdout w') (calls w')))
    /\ calls w' = (calls w ++ List.map call_of objs)%list
    /\ forall k : Kind,
         invocations k (calls w') = (invocations k (calls w) + count_kind k objs)%nat.
Proof.
  destruct (for_each_returns objs O HO w) as [w' Hw'].
  exists w'. split; [exact Hw'|].
  split.
  { intros log. destruct w as [s out tr]. now apply for_each_recording. }
  pose proof (for_each_normal_calls objs O w w' Hw') as Hcalls.
  split; [exact Hcalls|].
  intros k. now rewrite Hcalls, invocations_app, invocations_map_call_of.
Qed.

Lemma loop_calls_each_object_once_witness :
  exists w' : World unit,
    for_each (getObjects tt) DataRenderer.class (MkWorld tt "" []) = Normal w'
    /\ (forall log : list Call,
          for_each (getObjects tt) (Recording DataRenderer.class)
            (MkWorld (tt, log) "" [])
          = Normal (MkWorld (visitor w', (log ++ List.map call_of (getObjects tt))%list)
                      (stdout w') (calls w')))
    /\ calls w' = ([] ++ List.map call_of (getObjects tt))%list
    /\ forall k : Kind,
         invocations k (calls w')
         = (invocations k [] + count_kind k (getObjects tt))%nat.
Proof.
  apply (loop_calls_each_object_once (getObjects tt) DataRenderer.class
           (MkWorld tt "" [])).
  intros [o|o|o] []; reflexivity.
Defined.

(** * The objects stay as they were built *)

Section Immutable.
Context {S : Type}.
Implicit Types (O : derived S) (obj : DataObject).



End Immutable.



(** * Two instances of one class *)

Section Statics.
Context {S G : Type}.
Implicit Types (O : derived (S * G)) (obj : DataObject).



End Statics.

Lemma without_statics_leaves_statics {S G : Type} (g0 : G) (O : derived S) :
  leaves_statics (without_statics g0 O).
Proof.
  intros obj s g.
  destruct obj as [o|o|o]; cbn [handler_for without_statics visit_StringObject
                                 visit_IntegerObject visit_FloatObject].
  - destruct (visit_StringObject O); reflexivity.
  - destruct (visit_IntegerObject O); reflexivity.
  - destruct (visit_FloatObject O); reflexivity.
Qed.








(** * Conversion to [float] rounds to nearest *)























(** * The float object: single precision, printed with [%f] *)


